(** * osbs-box: the orchestration script [osbs-box.py]

    A shallow embedding of the script's command runner, its three
    readiness pollers, the registry patch of the OpenShift master
    configuration and the [up] / [pull-image] commands, followed by the
    properties of the specification that concern them.

    Conventions of the model.
    - Python [str] and [bytes] are both carried as [string], a [str] by
      its UTF-8 encoding; [decode('utf-8')] is the identity and the model
      covers process output that is well-formed UTF-8.
    - An external process is answered by the world: the n-th process
      spawned gets the behaviour [procs w n] (its output lines, its exit
      status, and how many [poll()] calls still find it running).  Output
      is finite.  The executable is taken to exist, so spawning itself
      does not fail.
    - A YAML file is carried by the document it denotes: [safe_load]
      reads the document and [safe_dump] stores it.
    - Everything observable (text printed, processes spawned, lines read
      from a pipe, sleeps, files written) is appended to [events]. *)

From stdpp Require Import gmap strings list fin_maps pretty.
From Stdlib Require Import ZArith Ascii String.

Set Warnings "-register-all".
Local Open Scope string_scope.
Local Open Scope Z_scope.

(** ** Text *)

Module Text.

Definition code (c : ascii) : N := N_of_ascii c.

(** Whitespace of [bytes.rstrip()]: space, \t, \n, \v, \f, \r. *)
Definition bytes_space (c : ascii) : bool :=
  ((9 <=? code c) && (code c <=? 13))%N || (code c =? 32)%N.

(** [bytes.rstrip()] *)
Fixpoint rstrip (s : string) : string :=
  match s with
  | EmptyString => EmptyString
  | String c r =>
      match rstrip r with
      | EmptyString => if bytes_space c then EmptyString else String c EmptyString
      | String _ _ as r' => String c r'
      end
  end.

(** Whitespace of [str.strip()] ([str.isspace]), by the length of its
    UTF-8 encoding.  One byte: U+0009..U+000D, U+001C..U+001F, U+0020. *)
Definition space1 (a : ascii) : bool :=
  ((9 <=? code a) && (code a <=? 13))%N
  || ((28 <=? code a) && (code a <=? 32))%N.

(** Two bytes: U+0085 (C2 85) and U+00A0 (C2 A0). *)
Definition space2 (a b : ascii) : bool :=
  (code a =? 194)%N && ((code b =? 133)%N || (code b =? 160)%N).

(** Three bytes: U+1680 (E1 9A 80), U+2000..U+200A (E2 80 80..8A),
    U+2028, U+2029 (E2 80 A8, A9), U+202F (E2 80 AF),
    U+205F (E2 81 9F), U+3000 (E3 80 80). *)
Definition space3 (a b c : ascii) : bool :=
  ((code a =? 225)%N && (code b =? 154)%N && (code c =? 128)%N)
  || ((code a =? 226)%N && (code b =? 128)%N
      && (((128 <=? code c) && (code c <=? 138))%N
          || (code c =? 168)%N || (code c =? 169)%N || (code c =? 175)%N))
  || ((code a =? 226)%N && (code b =? 129)%N && (code c =? 159)%N)
  || ((code a =? 227)%N && (code b =? 128)%N && (code c =? 128)%N).

(** Drop leading whitespace; [fwd] tells whether the bytes are met in
    encoding order (from the left) or reversed (from the right). *)
Fixpoint drop_space (fwd : bool) (s : string) : string :=
  match s with
  | EmptyString => EmptyString
  | String a r1 =>
      if space1 a then drop_space fwd r1 else
      match r1 with
      | EmptyString => s
      | String b r2 =>
          if (if fwd then space2 a b else space2 b a) then drop_space fwd r2 else
          match r2 with
          | EmptyString => s
          | String c r3 =>
              if (if fwd then space3 a b c else space3 c b a)
              then drop_space fwd r3 else s
          end
      end
  end.

(** [str.strip()] *)
Definition strip (s : string) : string :=
  String.rev (drop_space false (String.rev (drop_space true s))).

(** [needle in hay] *)
Fixpoint contains (needle hay : string) : bool :=
  String.prefix needle hay
  || match hay with
     | EmptyString => false
     | String _ r => contains needle r
     end.

(** [s.startswith(p)] *)
Definition startswith (p s : string) : bool := String.prefix p s.

(** [" ".join(l)] *)
Definition join (sep : string) (l : list string) : string := String.concat sep l.

(** [''.join(l)] *)
Fixpoint cat (l : list string) : string :=
  match l with
  | [] => EmptyString
  | x :: r => x ++ cat r
  end.

(** The line feed, ['\n']. *)
Definition nl : string := String (ascii_of_nat 10) EmptyString.

(** ['{}'.format(n)] for an [int] *)
Definition str_of_int (n : Z) : string := pretty n.

End Text.

(** ** YAML documents *)

Inductive yaml :=
| YNull
| YBool (b : bool)
| YInt (n : Z)
| YStr (s : string)
| YSeq (items : list yaml)
| YMap (fields : gmap string yaml).

(** ** Exceptions, events, processes, the world *)

Inductive exn :=
| RuntimeError (args : list string)
| AssertionError
| CalledProcessError (returncode : Z) (cmd : list string)
| AttributeError
| TypeError
| KeyError (key : string)
| FileNotFoundError (path : string).

Inductive event :=
| Print (text : string)          (* print(text) *)
| Shell (cmdline : string)       (* Popen(cmdline, shell=True) *)
| Exec (argv : list string)      (* Popen(argv) / check_call(argv) *)
| Readline                       (* <pipe>.readline() *)
| Sleep (seconds : nat)          (* sleep(seconds) *)
| Dump (path : string).          (* open(path, 'w') + yaml.safe_dump *)

Record proc := Proc {
  stdout : list string;   (* the lines [readline] hands out, then EOF *)
  returncode : Z;         (* exit status *)
  alive : nat             (* [poll()] calls that still answer [None] *)
}.

Record world := World {
  procs : nat -> proc;
  spawned : nat;
  files : gmap string yaml;
  dirs : gset string;
  events : list event
}.

Inductive result (A : Type) :=
| Ok (a : A)
| Raise (e : exn).
Arguments Ok {A} a.
Arguments Raise {A} e.

Definition M (A : Type) : Type := world -> result A * world.

Definition ret {A} (a : A) : M A := fun w => (Ok a, w).

Definition raise {A} (e : exn) : M A := fun w => (Raise e, w).

Definition bind {A B} (m : M A) (k : A -> M B) : M B :=
  fun w =>
    match m w with
    | (Ok a, w') => k a w'
    | (Raise e, w') => (Raise e, w')
    end.

Declare Scope py_scope.
Delimit Scope py_scope with py.
Notation "x <- m ;; k" := (bind m (fun x => k))
  (at level 100, m at next level, right associativity) : py_scope.
Notation "m ;; k" := (bind m (fun _ => k))
  (at level 100, right associativity) : py_scope.
Local Open Scope py_scope.

(** [try: body  except <handled>: handler] -- [handler e = None] lets
    [e] propagate. *)
Definition try_except {A} (body : M A) (handler : exn -> option (M A)) : M A :=
  fun w =>
    match body w with
    | (Ok a, w') => (Ok a, w')
    | (Raise e, w') =>
        match handler e with
        | Some h => h w'
        | None => (Raise e, w')
        end
    end.

Definition when (b : bool) (m : M unit) : M unit := if b then m else ret tt.

Definition emit (e : event) : M unit :=
  fun w => (Ok tt, World (procs w) (spawned w) (files w) (dirs w) (events w ++ [e])).

Definition print (text : string) : M unit := emit (Print text).

Definition sleep (seconds : nat) : M unit := emit (Sleep seconds).

(** Spawning: the world hands out the behaviour of the next process. *)
Definition spawn (e : event) : M proc :=
  fun w => (Ok (procs w (spawned w)),
            World (procs w) (S (spawned w)) (files w) (dirs w) (events w ++ [e])).

(** [process.poll()] at the [k]-th call on that process. *)
Definition poll (p : proc) (k : nat) : option Z :=
  if (k <? alive p)%nat then None else Some (returncode p).

(** Python truthiness of what [poll()] returns. *)
Definition truthy_status (st : option Z) : bool :=
  match st with
  | None => false
  | Some n => negb (n =? 0)
  end.

(** [for _ in range(n): body], where [body] answers [true] when it left
    the loop ([break] / [return]); the loop answers whether it was left
    that way. *)
Fixpoint for_range (n : nat) (body : M bool) : M bool :=
  match n with
  | O => ret false
  | S n' => left <- body ;; if left then ret true else for_range n' body
  end.

(** ** Module-level constants *)

Definition LOCAL_REGISTRY : string := "172.17.0.1:5000".

(** ** The command runner *)

(** The [while True] loop of [_run] over the pipe of the process. *)
Fixpoint read_output (show_print : bool) (pipe : list string) (output : string)
  : M string :=
  match pipe with
  | [] => emit Readline ;; ret output
  | line :: rest =>
      emit Readline ;;
      if String.eqb line "" then ret output
      else
        let decoded_line := Text.rstrip line in
        when show_print (print decoded_line) ;;
        read_output show_print rest (output ++ decoded_line ++ Text.nl)
  end.

Inductive cmd_arg :=
| Argv (words : list string)
| Line (text : string).

(** [if isinstance(cmd, list): cmd = " ".join(cmd)] *)
Definition cmdline (cmd : cmd_arg) : string :=
  match cmd with
  | Argv words => Text.join " " words
  | Line text => text
  end.

Definition _run (cmd : cmd_arg) (ignore_exitcode show_print : bool) : M string :=
  let cmd := cmdline cmd in
  when show_print (print ("Running '" ++ cmd ++ "'")) ;;
  proc <- spawn (Shell cmd) ;;
  output <- read_output show_print (stdout proc) "" ;;
  if negb ignore_exitcode && negb (returncode proc =? 0) then
    when (negb show_print) (print output) ;;
    raise (RuntimeError ["Command " ++ cmd ++ " failed with exitcode "
                         ++ Text.str_of_int (returncode proc)])
  else
    when show_print (print "") ;;
    ret (Text.strip output).


(** ** Readiness pollers *)

Section Script.

(** [dir_path]: the name of the directory holding the script, dashes
    removed; [re.search] (answering the groups of the first match) and
    [os.path.abspath] are the Python library's. *)
Variable dir_path : string.
Variable re_search : string -> string -> option (list string).
Variable abspath : string -> string.

Definition inspect_cmd (container : string) : list string :=
  ["docker"; "inspect"; "--format='{{.State.Running}}'";
   dir_path ++ "_" ++ container ++ "_1"].

Definition _wait_until_container_is_up (container : string) : M unit :=
  let cmd := inspect_cmd container in
  container_is_up <-
    for_range 10
      (try_except
         (output <- _run (Argv cmd) false false ;;
          if String.eqb output "true" then ret true else ret false)
         (fun e => match e with
                   | CalledProcessError _ _ => Some (sleep 1 ;; ret false)
                   | _ => None
                   end)) ;;
  if container_is_up then ret tt else raise AssertionError.

(** The [while not process.poll()] loop; [polls] counts the [poll()]
    calls made so far.  Answers [container_initialized] and
    [container_logs]. *)
Fixpoint scan_logs (container str_to_find : string) (process : proc)
    (polls : nat) (pipe : list string) (container_logs : string)
  : M (bool * string) :=
  if truthy_status (poll process polls) then ret (false, container_logs)
  else
    emit Readline ;;
    match pipe with
    | [] => ret (false, container_logs)
    | line :: rest =>
        if String.eqb line "" then ret (false, container_logs)
        else
          let decoded_line := line in
          let container_logs := container_logs ++ decoded_line in
          if Text.contains str_to_find decoded_line then
            print ("Container " ++ container ++ " is up") ;;
            ret (true, container_logs)
          else
            scan_logs container str_to_find process (S polls) rest container_logs
    end.

Definition _wait_until_string_is_in_logs (container str_to_find : string)
  : M unit :=
  let cmd := ["docker"; "logs"; "-f"; container] in
  process <- spawn (Exec cmd) ;;
  st <- scan_logs container str_to_find process 0 (stdout process) "" ;;
  let '(container_initialized, container_logs) := st in
  if container_initialized then ret tt
  else
    print container_logs ;;
    raise (RuntimeError ["%s failed to start"; container]).

(** [subprocess.check_call(cmd, stdout=DEVNULL)] *)
Definition check_call (cmd : list string) : M Z :=
  process <- spawn (Exec cmd) ;;
  if returncode process =? 0 then ret 0
  else raise (CalledProcessError (returncode process) cmd).

Definition openshift_down_message : string :=
  "OpenShift cluster is not up! See logs for " ++ String (ascii_of_nat 34) "origin"
  ++ String (ascii_of_nat 34) " container.".

Definition _wait_until_openshift_is_up : M unit :=
  let cmd := ["oc"; "cluster"; "status"] in
  print "Waiting for OpenShift cluster to be up" ;;
  returned <-
    for_range 90
      (try_except
         (check_call cmd ;; ret true)
         (fun e => match e with
                   | CalledProcessError _ _ => Some (sleep 1 ;; ret false)
                   | _ => None
                   end)) ;;
  if returned then ret tt
  else raise (RuntimeError [openshift_down_message]).

(** ** The registry patch of the master configuration *)

Definition config_path : string :=
  "/var/lib/origin/openshift.local.config/master/master-config.yaml".

(** [with open(path) as fd: yaml.safe_load(fd)] *)
Definition safe_load (path : string) : M yaml :=
  fun w =>
    match files w !! path with
    | Some doc => (Ok doc, w)
    | None => (Raise (FileNotFoundError path), w)
    end.

(** [with open(path, 'w') as fd: yaml.safe_dump(doc, fd)] *)
Definition safe_dump (doc : yaml) (path : string) : M unit :=
  fun w =>
    (Ok tt, World (procs w) (spawned w) (<[path := doc]> (files w)) (dirs w)
                  (events w ++ [Dump path])).

(** [d.setdefault(key, default)] on whatever [d] is: the value found or
    installed, and the mapping afterwards. *)
Definition setdefault (d : yaml) (key : string) (default : yaml)
  : exn + (yaml * gmap string yaml) :=
  match d with
  | YMap fields =>
      match fields !! key with
      | Some v => inr (v, fields)
      | None => inr (default, <[key := default]> fields)
      end
  | _ => inl AttributeError
  end.

(** [registry['domainName']], then hashing the value for the set. *)
Definition domain_of (registry : yaml) : exn + yaml :=
  match registry with
  | YMap fields =>
      match fields !! "domainName" with
      | Some (YSeq _) | Some (YMap _) => inl TypeError
      | Some v => inr v
      | None => inl (KeyError "domainName")
      end
  | _ => inl TypeError
  end.

(** [set(registry['domainName'] for registry in registries)] over a
    list, kept in the order met. *)
Fixpoint domains_of (registries : list yaml) : exn + list yaml :=
  match registries with
  | [] => inr []
  | registry :: rest =>
      match domain_of registry with
      | inl e => inl e
      | inr d =>
          match domains_of rest with
          | inl e => inl e
          | inr ds => inr (d :: ds)
          end
      end
  end.

(** [LOCAL_REGISTRY == v] *)
Definition is_local_registry (v : yaml) : bool :=
  match v with
  | YStr s => String.eqb LOCAL_REGISTRY s
  | _ => false
  end.

Definition local_entry : yaml :=
  YMap {[ "domainName" := YStr LOCAL_REGISTRY ]}.

Definition _update_origin_config : M bool :=
  config <- safe_load config_path ;;
  match setdefault config "imagePolicyConfig" (YMap ∅) with
  | inl e => raise e
  | inr (policy, config_fields) =>
      match setdefault policy "allowedRegistriesForImport" (YSeq []) with
      | inl e => raise e
      | inr (registries, policy_fields) =>
          match registries with
          | YSeq items =>
              match domains_of items with
              | inl e => raise e
              | inr domains =>
                  if negb (existsb is_local_registry domains) then
                    let items := (items ++ [local_entry])%list in
                    let policy :=
                      YMap (<["allowedRegistriesForImport" := YSeq items]> policy_fields) in
                    let config :=
                      YMap (<["imagePolicyConfig" := policy]> config_fields) in
                    safe_dump config config_path ;;
                    ret true
                  else ret false
              end
          (* iterating a mapping or a string yields strings, which
             cannot be indexed by ['domainName']; when empty, the set is
             empty and [append] is missing *)
          | YMap fields =>
              if bool_decide (fields = ∅) then raise AttributeError
              else raise TypeError
          | YStr s =>
              if String.eqb s "" then raise AttributeError else raise TypeError
          | YNull | YBool _ | YInt _ => raise TypeError
          end
      end
  end.

(** ** Commands *)

Record args := Args {
  no_cleanup : bool;
  force_rebuild : bool;
  updates : bool;
  updates_testing : bool;
  distro : string;
  repo_url : option string;
  ocp_version : string;
  ocp_image : string;
  public_hostname : option string
}.










Definition _copy_image (source destination_repo : string) : M unit :=
  let destination := "docker://" ++ LOCAL_REGISTRY ++ "/" ++ destination_repo in
  let source :=
    if negb (Text.startswith "docker://" source) then "docker://" ++ source
    else source in
  print ("Copying " ++ source ++ " to " ++ destination) ;;
  _run (Argv ["docker"; "run"; "--rm"; dir_path ++ "_skopeo-lite"; "copy";
              "--src-tls-verify=false"; "--dest-tls-verify=false";
              source; destination]) false true ;;
  ret tt.





End Script.

(** ** Reading the trace *)

(** What happened between the world [w] and a later world [w']. *)
Definition since (w w' : world) : list event :=
  drop (List.length (events w)) (events w').

(** The command line of each process spawned, in order. *)
Definition commands (evs : list event) : list string :=
  omap (fun e => match e with
                 | Shell cmdline => Some cmdline
                 | Exec argv => Some (Text.join " " argv)
                 | _ => None
                 end) evs.

(** Seconds slept. *)
Definition sleeps (evs : list event) : list nat :=
  omap (fun e => match e with Sleep n => Some n | _ => None end) evs.


(** What [_run] accumulates in [output] from a pipe, and what reading it
    leaves in the trace. *)
Fixpoint captured (pipe : list string) (output : string) : string :=
  match pipe with
  | [] => output
  | line :: rest =>
      if String.eqb line "" then output
      else captured rest (output ++ Text.rstrip line ++ Text.nl)
  end.

Fixpoint read_events (show_print : bool) (pipe : list string) : list event :=
  match pipe with
  | [] => [Readline]
  | line :: rest =>
      if String.eqb line "" then [Readline]
      else Readline :: (if show_print then [Print (Text.rstrip line)] else [])
                    ++ read_events show_print rest
  end.

(** The world after [evs] happened, [n] of them spawning a process. *)
Definition advance (n : nat) (evs : list event) (w : world) : world :=
  World (procs w) (n + spawned w) (files w) (dirs w) (events w ++ evs).

(** Did the command fail, as [_run] sees it? *)
Definition failed (ignore_exitcode : bool) (p : proc) : bool :=
  negb ignore_exitcode && negb (returncode p =? 0).

Definition failure_message (line : string) (p : proc) : string :=
  "Command " ++ line ++ " failed with exitcode " ++ Text.str_of_int (returncode p).

(** Everything [_run] leaves in the trace. *)
Definition run_events (line : string) (ignore_exitcode show_print : bool) (p : proc)
  : list event :=
  (if show_print then [Print ("Running '" ++ line ++ "'")] else [])
  ++ [Shell line]
  ++ read_events show_print (stdout p)
  ++ (if failed ignore_exitcode p
      then (if show_print then [] else [Print (captured (stdout p) "")])
      else (if show_print then [Print ""] else [])).

(** ** Vocabulary of the properties *)

Definition status_cmd : list string := ["oc"; "cluster"; "status"].

(** One iteration of the loop of [_wait_until_openshift_is_up]. *)
Definition status_attempt : M bool :=
  try_except (check_call status_cmd ;; ret true)
    (fun e => match e with
              | CalledProcessError _ _ => Some (sleep 1 ;; ret false)
              | _ => None
              end).

(** One iteration of the loop of [_wait_until_container_is_up]. *)
Definition inspect_attempt (dir_path container : string) : M bool :=
  try_except
    (output <- _run (Argv (inspect_cmd dir_path container)) false false ;;
     if String.eqb output "true" then ret true else ret false)
    (fun e => match e with
              | CalledProcessError _ _ => Some (sleep 1 ;; ret false)
              | _ => None
              end).

(** What [_run] returns for a process that exits with status 0. *)
Definition inspect_output (p : proc) : string :=
  Text.strip (captured (stdout p) "").

Definition inspect_line (dir_path container : string) : string :=
  Text.join " " (inspect_cmd dir_path container).

(** Index, among [n] processes from the [from]-th on, of the first one
    that prints ['true']. *)
Fixpoint first_up (ps : nat -> proc) (from n : nat) : option nat :=
  match n with
  | O => None
  | S n' =>
      if String.eqb (inspect_output (ps from)) "true" then Some O
      else S <$> first_up ps (S from) n'
  end.



(** A first inspection that fails, a second one that would print [true]. *)
Definition absent_then_up : world :=
  World (fun n => match n with
                  | O => Proc ["Error: No such object: osbsbox_koji-client_1" ++ Text.nl] 1 0
                  | _ => Proc ["true" ++ Text.nl] 0 0
                  end)
        0 ∅ ∅ [].


Definition logs_cmd (container : string) : list string :=
  ["docker"; "logs"; "-f"; container].




(** The [allowedRegistriesForImport] list of a configuration, as the
    patch reads it: a missing [imagePolicyConfig] counts as an empty
    mapping and a missing list as the empty list. *)
Definition registries_of (config : yaml) : option (list yaml) :=
  match config with
  | YMap fields =>
      match default (YMap ∅) (fields !! "imagePolicyConfig") with
      | YMap policy =>
          match default (YSeq []) (policy !! "allowedRegistriesForImport") with
          | YSeq items => Some items
          | _ => None
          end
      | _ => None
      end
  | _ => None
  end.

(** The configuration file as it stands in a world. *)
Definition master_config (w : world) : option yaml := files w !! config_path.

(** The world after [doc] was dumped to the configuration file. *)
Definition dumped (doc : yaml) (w : world) : world :=
  World (procs w) (spawned w) (<[config_path := doc]> (files w)) (dirs w)
        (events w ++ [Dump config_path]).

(** A configuration with its [allowedRegistriesForImport] list replaced
    and everything else kept. *)
Definition with_registries (config : yaml) (items : list yaml) : yaml :=
  match config with
  | YMap fields =>
      let policy := match fields !! "imagePolicyConfig" with
                    | Some (YMap policy) => policy
                    | _ => ∅
                    end in
      YMap (<["imagePolicyConfig" :=
                YMap (<["allowedRegistriesForImport" := YSeq items]> policy)]> fields)
  | _ => config
  end.














(** A fresh checkout: no [ssl] directory; every command exits with
    status 0 and prints nothing. *)
Definition fresh_checkout : world :=
  World (fun _ => Proc [] 0 0) 0 ∅ ∅ [].

(** A cluster that never comes up: every command exits with status 1. *)
Definition cluster_never_up : world :=
  World (fun _ => Proc [] 1 0) 0 ∅ ∅ [].

(** A log stream whose second line holds the target. *)
Definition logs_streaming : world :=
  World (fun _ => Proc ["Starting koji-client" ++ Text.nl;
                        "+ exec sleep infinity" ++ Text.nl;
                        "later" ++ Text.nl] 0 9) 0 ∅ ∅ [].

(** A master configuration that allows imports from docker.io only. *)
Definition docker_io_only : yaml :=
  YMap {[ "imagePolicyConfig" :=
            YMap {[ "allowedRegistriesForImport" :=
                      YSeq [YMap {[ "domainName" := YStr "docker.io" ]}] ]} ]}.


Definition with_config (doc : yaml) : world :=
  World (fun _ => Proc [] 0 0) 0 {[ config_path := doc ]} ∅ [].


(** Files written, in order. *)
Definition dumps (evs : list event) : list string :=
  omap (fun e => match e with Dump path => Some path | _ => None end) evs.


(** Index, among [n] processes from the [from]-th on, of the first one
    that exits with status 0. *)
Fixpoint first_exit0 (ps : nat -> proc) (from n : nat) : option nat :=
  match n with
  | O => None
  | S n' =>
      if returncode (ps from) =? 0 then Some O
      else S <$> first_exit0 ps (S from) n'
  end.





(** What [status] reports for a service whose inspection was answered by
    the process [p]. *)
Definition service_report (p : proc) : string :=
  if returncode p =? 0 then Text.strip (inspect_output p) else "not found".


(** The lines of that loop. *)
Fixpoint service_lines (ps : nat -> proc) (from : nat) (services : list string)
  : list string :=
  match services with
  | [] => []
  | service :: rest =>
      (service ++ ": " ++ service_report (ps from)) :: service_lines ps (S from) rest
  end.





(** The command line of [_copy_image]. *)
Definition copy_line (dir_path source destination : string) : string :=
  Text.join " " ["docker"; "run"; "--rm"; dir_path ++ "_skopeo-lite"; "copy";
                 "--src-tls-verify=false"; "--dest-tls-verify=false";
                 source; destination].

(** A cluster whose status command succeeds at the third invocation. *)
Definition cluster_up_on_third : world :=
  World (fun n => if (n <? 2)%nat then Proc [] 1 0 else Proc [] 0 0) 0 ∅ ∅ [].


(** A registry list whose second entry has no [domainName]. *)
Definition entry_without_domain : yaml :=
  YMap {[ "imagePolicyConfig" :=
            YMap {[ "allowedRegistriesForImport" :=
                      YSeq [local_entry; YMap {[ "insecure" := YBool true ]}] ]} ]}.

(** A configuration with other settings and no [imagePolicyConfig]. *)
Definition bare_config : gmap string yaml :=
  {[ "apiVersion" := YStr "v1" ]}.





(** * Properties *)

(** ** Worlds and traces *)

Lemma advance_0_nil w : advance 0 [] w = w.
Proof. destruct w; unfold advance; simpl. by rewrite app_nil_r. Qed.

Lemma advance_advance n m evs evs' w :
  advance m evs' (advance n evs w) = advance (m + n) (evs ++ evs') w.
Proof.
  unfold advance; simpl. f_equal; [lia | by rewrite <- app_assoc].
Qed.

Lemma since_advance n evs w : since w (advance n evs w) = evs.
Proof. unfold since, advance; simpl. by rewrite drop_app_length. Qed.

Lemma since_refl w : since w w = [].
Proof. unfold since. by rewrite drop_all. Qed.

Lemma bind_eq {A B} (m : M A) (k : A -> M B) w :
  bind m k w = match m w with
               | (Ok a, w') => k a w'
               | (Raise e, w') => (Raise e, w')
               end.
Proof. reflexivity. Qed.

Lemma ret_eq {A} (a : A) w : ret a w = (Ok a, w).
Proof. reflexivity. Qed.

Lemma raise_eq {A} e w : @raise A e w = (Raise e, w).
Proof. reflexivity. Qed.

Lemma emit_eq e w : emit e w = (Ok tt, advance 0 [e] w).
Proof. reflexivity. Qed.

Lemma print_eq text w : print text w = (Ok tt, advance 0 [Print text] w).
Proof. reflexivity. Qed.

Lemma sleep_eq n w : sleep n w = (Ok tt, advance 0 [Sleep n] w).
Proof. reflexivity. Qed.

Lemma spawn_eq e w : spawn e w = (Ok (procs w (spawned w)), advance 1 [e] w).
Proof. reflexivity. Qed.

(** One step of symbolic execution: expose a [bind], run the primitive
    in front, merge the worlds. *)
Ltac exec :=
  repeat (rewrite ?bind_eq, ?ret_eq, ?raise_eq, ?emit_eq, ?print_eq, ?sleep_eq,
            ?spawn_eq, ?advance_advance;
          cbv beta iota).

(** ** The command runner *)

Lemma read_output_eq show pipe output w :
  read_output show pipe output w
  = (Ok (captured pipe output), advance 0 (read_events show pipe) w).
Proof.
  revert output w. induction pipe as [|line rest IH]; intros output w.
  - reflexivity.
  - cbn [read_output captured read_events]. exec.
    destruct (String.eqb line ""); [reflexivity|].
    destruct show; cbn [when]; exec; rewrite IH; exec; reflexivity.
Qed.

Lemma _run_eq cmd ign show w :
  let p := procs w (spawned w) in
  _run cmd ign show w
  = (if failed ign p then Raise (RuntimeError [failure_message (cmdline cmd) p])
     else Ok (Text.strip (captured (stdout p) "")),
     advance 1 (run_events (cmdline cmd) ign show p) w).
Proof.
  intros p. unfold _run, run_events, failed, failure_message.
  set (line := cmdline cmd).
  subst p.
  destruct show; cbn [when negb]; exec; cbn [advance procs spawned Init.Nat.add];
    rewrite read_output_eq; exec;
    destruct (negb ign && negb (returncode (procs w (spawned w)) =? 0));
    cbn [when negb]; exec; cbn [app Init.Nat.add];
    rewrite ?app_nil_r; reflexivity.
Qed.

Lemma failed_false_zero ign p : returncode p = 0 -> failed ign p = false.
Proof. unfold failed. intros ->. by rewrite andb_false_r. Qed.



(** ** The cluster poller *)

Lemma check_call_eq cmd w :
  let p := procs w (spawned w) in
  check_call cmd w
  = (if returncode p =? 0 then Ok 0 else Raise (CalledProcessError (returncode p) cmd),
     advance 1 [Exec cmd] w).
Proof.
  intros p. subst p. unfold check_call. exec.
  cbn [advance procs spawned Init.Nat.add].
  destruct (returncode (procs w (spawned w)) =? 0); reflexivity.
Qed.

Lemma status_attempt_eq w :
  let p := procs w (spawned w) in
  status_attempt w
  = if returncode p =? 0 then (Ok true, advance 1 [Exec status_cmd] w)
    else (Ok false, advance 1 [Exec status_cmd; Sleep 1] w).
Proof.
  intros p. subst p. unfold status_attempt, try_except. exec.
  rewrite check_call_eq. exec.
  destruct (returncode (procs w (spawned w)) =? 0); exec; reflexivity.
Qed.

Lemma status_loop_all_fail n w :
  (forall i, (i < n)%nat -> returncode (procs w (spawned w + i)) ≠ 0) ->
  for_range n status_attempt w
  = (Ok false, advance n (mjoin (replicate n [Exec status_cmd; Sleep 1])) w).
Proof.
  revert w. induction n as [|n IH]; intros w Hfail.
  - cbn. by rewrite advance_0_nil.
  - cbn [for_range]. exec. rewrite status_attempt_eq.
    assert (H0 : returncode (procs w (spawned w)) ≠ 0).
    { specialize (Hfail O). rewrite Nat.add_0_r in Hfail. apply Hfail. lia. }
    apply Z.eqb_neq in H0 as ->. exec.
    rewrite IH.
    + rewrite advance_advance. by replace (n + 1)%nat with (S n) by lia.
    + intros i Hi. cbn [advance procs spawned].
      replace (1 + spawned w + i)%nat with (spawned w + S i)%nat by lia.
      apply Hfail. lia.
Qed.

(** C3: when the first [oc cluster status] succeeds the poller makes
    exactly that one invocation and returns; when all of them fail it
    makes exactly 90 invocations, each followed by a sleep of 1, and then
    raises the [RuntimeError] that names the OpenShift cluster. *)
Theorem openshift_poller_bounds (w : world) :
  (returncode (procs w (spawned w)) = 0 ->
   _wait_until_openshift_is_up w
   = (Ok tt, advance 1 [Print "Waiting for OpenShift cluster to be up";
                        Exec status_cmd] w))
  ∧ ((forall i, (i < 90)%nat -> returncode (procs w (spawned w + i)) ≠ 0) ->
     _wait_until_openshift_is_up w
     = (Raise (RuntimeError [openshift_down_message]),
        advance 90 (Print "Waiting for OpenShift cluster to be up"
                    :: mjoin (replicate 90 [Exec status_cmd; Sleep 1])) w)
     ∧ Text.contains "OpenShift cluster" openshift_down_message = true).
Proof.
  split.
  - intros Hrc. unfold _wait_until_openshift_is_up. exec.
    change (for_range 90 _) with (for_range 90 status_attempt).
    change 90%nat with (S 89). cbn [for_range]. exec.
    rewrite status_attempt_eq. cbn [advance procs spawned Init.Nat.add].
    rewrite Hrc. cbn [Z.eqb]. exec. reflexivity.
  - intros Hfail. split; [|reflexivity].
    unfold _wait_until_openshift_is_up. exec.
    change (for_range 90 _) with (for_range 90 status_attempt).
    rewrite status_loop_all_fail by (intros i Hi; by apply Hfail).
    exec. f_equal.
Qed.

(** ** The container poller *)

Lemma inspect_attempt_eq dir_path container w :
  let p := procs w (spawned w) in
  let line := inspect_line dir_path container in
  inspect_attempt dir_path container w
  = if returncode p =? 0
    then (Ok (String.eqb (inspect_output p) "true"),
          advance 1 (Shell line :: read_events false (stdout p)) w)
    else (Raise (RuntimeError [failure_message line p]),
          advance 1 (Shell line :: read_events false (stdout p)
                     ++ [Print (captured (stdout p) "")]) w).
Proof.
  intros p line. subst p line.
  unfold inspect_attempt, try_except, inspect_line. exec.
  rewrite _run_eq. unfold failed, run_events, failed. cbn [negb andb cmdline app].
  destruct (returncode (procs w (spawned w)) =? 0); cbn [negb]; exec.
  - rewrite app_nil_r. unfold inspect_output.
    destruct (String.eqb _ "true"); reflexivity.
  - reflexivity.
Qed.



Lemma container_poller_failure dir_path container w :
  let p := procs w (spawned w) in
  let line := inspect_line dir_path container in
  returncode p ≠ 0 ->
  _wait_until_container_is_up dir_path container w
  = (Raise (RuntimeError [failure_message line p]),
     advance 1 (Shell line :: read_events false (stdout p)
                ++ [Print (captured (stdout p) "")]) w).
Proof.
  intros p line Hrc. unfold _wait_until_container_is_up. exec.
  change (for_range 10 _) with (for_range 10 (inspect_attempt dir_path container)).
  change 10%nat with (S 9). cbn [for_range]. exec.
  rewrite inspect_attempt_eq. fold p.
  apply Z.eqb_neq in Hrc as ->. reflexivity.
Qed.

Lemma commands_read_events show pipe : commands (read_events show pipe) = [].
Proof.
  induction pipe as [|line rest IH]; [reflexivity|].
  cbn [read_events]. destruct (String.eqb line ""); [reflexivity|].
  unfold commands in *. change (Readline :: ?a ++ ?b) with ([Readline] ++ a ++ b)%list.
  rewrite !omap_app, IH. destruct show; reflexivity.
Qed.

Lemma sleeps_read_events show pipe : sleeps (read_events show pipe) = [].
Proof.
  induction pipe as [|line rest IH]; [reflexivity|].
  cbn [read_events]. destruct (String.eqb line ""); [reflexivity|].
  unfold sleeps in *. change (Readline :: ?a ++ ?b) with ([Readline] ++ a ++ b)%list.
  rewrite !omap_app, IH. destruct show; reflexivity.
Qed.

Lemma commands_app evs evs' : commands (evs ++ evs') = (commands evs ++ commands evs')%list.
Proof. apply omap_app. Qed.

Lemma sleeps_app evs evs' : sleeps (evs ++ evs') = (sleeps evs ++ sleeps evs')%list.
Proof. apply omap_app. Qed.



(** C1: with a first [docker inspect] that exits with status 1 and a
    second one that would print [true], the poller makes one attempt and
    lets the [RuntimeError] of [_run] through: it neither reaches the
    attempt that answers [true] nor exhausts ten attempts and aborts on
    the assertion. *)
Theorem container_poller_first_failure_escapes :
  let '(r, w') := _wait_until_container_is_up "osbsbox" "koji-client" absent_then_up in
  r = Raise (RuntimeError
               ["Command docker inspect --format='{{.State.Running}}' "
                ++ "osbsbox_koji-client_1 failed with exitcode 1"])
  ∧ commands (since absent_then_up w')
    = ["docker inspect --format='{{.State.Running}}' osbsbox_koji-client_1"]
  ∧ sleeps (since absent_then_up w') = []
  ∧ first_up (procs absent_then_up) 0 10 = Some 1%nat.
Proof. vm_compute. done. Qed.



(** ** The log poller *)



Lemma append_assoc (a b c : string) : (a ++ b) ++ c = a ++ b ++ c.
Proof.
  induction a as [|x a IH]; [reflexivity|].
  change (String x ((a ++ b) ++ c) = String x (a ++ b ++ c)). by rewrite IH.
Qed.

Lemma append_nil_r (a : string) : a ++ "" = a.
Proof.
  induction a as [|x a IH]; [reflexivity|].
  change (String x (a ++ "") = String x a). by rewrite IH.
Qed.









(** ** The registry patch *)

Lemma domain_of_local_entry : domain_of local_entry = inr (YStr LOCAL_REGISTRY).
Proof. unfold domain_of, local_entry. by rewrite lookup_singleton_eq. Qed.

Lemma domains_of_app rs rs' ds ds' :
  domains_of rs = inr ds -> domains_of rs' = inr ds' ->
  domains_of (rs ++ rs') = inr (ds ++ ds')%list.
Proof.
  revert ds. induction rs as [|r rs IH]; intros ds Hrs Hrs'.
  - cbn in Hrs. by inversion Hrs.
  - cbn [app domains_of] in *. destruct (domain_of r) as [e|d]; [done|].
    destruct (domains_of rs) as [e|ds0]; [done|]. inversion Hrs; subst.
    by rewrite (IH ds0).
Qed.

Lemma is_local_registry_local : is_local_registry (YStr LOCAL_REGISTRY) = true.
Proof. reflexivity. Qed.

Lemma safe_load_eq w doc :
  files w !! config_path = Some doc -> safe_load config_path w = (Ok doc, w).
Proof. intros H. unfold safe_load. by rewrite H. Qed.

Lemma safe_dump_eq doc w : safe_dump doc config_path w = (Ok tt, dumped doc w).
Proof. reflexivity. Qed.

(** The shape [registries_of] asks of a configuration. *)
Lemma registries_of_Some config rs :
  registries_of config = Some rs ->
  exists fields policy policy_fields,
    config = YMap fields
    ∧ setdefault config "imagePolicyConfig" (YMap ∅)
      = inr (YMap policy, policy_fields)
    ∧ <["imagePolicyConfig" := YMap policy]> policy_fields
      = <["imagePolicyConfig" := YMap policy]> fields
    ∧ (policy = match fields !! "imagePolicyConfig" with
                | Some (YMap policy) => policy
                | _ => ∅
                end)
    ∧ default (YSeq []) (policy !! "allowedRegistriesForImport") = YSeq rs.
Proof.
  destruct config as [| | | | |fields]; try done. cbn [registries_of setdefault].
  destruct (fields !! "imagePolicyConfig") as [v|] eqn:Hv; cbn [from_option id].
  - destruct v as [| | | | |policy]; try done.
    destruct (default (YSeq []) (policy !! "allowedRegistriesForImport"))
      as [| | | |items|] eqn:Hitems; try done.
    intros [= ->]. exists fields, policy, fields. by rewrite Hv.
  - rewrite lookup_empty. cbn [from_option id]. intros [= <-].
    exists fields, ∅, (<["imagePolicyConfig" := YMap ∅]> fields).
    rewrite Hv, lookup_empty. cbn [from_option id]. by rewrite insert_insert_eq.
Qed.

Lemma update_origin_config_eq w config rs ds :
  master_config w = Some config ->
  registries_of config = Some rs ->
  domains_of rs = inr ds ->
  _update_origin_config w
  = if existsb is_local_registry ds then (Ok false, w)
    else (Ok true, dumped (with_registries config (rs ++ [local_entry])) w).
Proof.
  intros Hfile Hregs Hds.
  destruct (registries_of_Some _ _ Hregs)
    as (fields & policy & policy_fields & -> & Hset & Hins & Hpol & Hitems).
  unfold _update_origin_config. exec. rewrite (safe_load_eq _ _ Hfile). exec.
  rewrite Hset. cbn [setdefault with_registries]. rewrite <- Hpol.
  assert (Hfields :
    <["imagePolicyConfig" := YMap (<["allowedRegistriesForImport" :=
        YSeq (rs ++ [local_entry])]> policy)]> policy_fields
    = <["imagePolicyConfig" := YMap (<["allowedRegistriesForImport" :=
        YSeq (rs ++ [local_entry])]> policy)]> fields).
  { rewrite <- (insert_insert_eq policy_fields "imagePolicyConfig" _ (YMap policy)).
    rewrite Hins. by rewrite insert_insert_eq. }
  clear Hpol Hset Hins Hregs.
  destruct (policy !! "allowedRegistriesForImport") as [v|] eqn:Hv;
    cbn [from_option id] in Hitems; inversion Hitems; subst; rewrite Hds;
    destruct (existsb is_local_registry ds); cbn [negb]; exec;
    rewrite ?safe_dump_eq; exec; try reflexivity.
  - by rewrite Hfields.
  - rewrite insert_insert_eq. by rewrite Hfields.
Qed.

Lemma registries_of_with_registries config rs items :
  registries_of config = Some rs ->
  registries_of (with_registries config items) = Some items.
Proof.
  destruct config as [| | | | |fields]; try done. intros _.
  cbn [with_registries registries_of].
  rewrite lookup_insert_eq. cbn [from_option id].
  by rewrite lookup_insert_eq.
Qed.

Lemma master_config_dumped doc w : master_config (dumped doc w) = Some doc.
Proof. unfold master_config, dumped. cbn [files]. apply lookup_insert_eq. Qed.

Lemma existsb_local_app ds :
  existsb is_local_registry (ds ++ [YStr LOCAL_REGISTRY]) = true.
Proof. rewrite existsb_app. cbn [existsb]. by rewrite is_local_registry_local, orb_true_r. Qed.



(** ** Pulling an image *)

Lemma commands_run_events line ign show p :
  commands (run_events line ign show p) = [line].
Proof.
  unfold run_events. rewrite !commands_app, commands_read_events.
  destruct show, (failed ign p); reflexivity.
Qed.



(** ** Bringing the box up *)


































Lemma run_then {B} cmd ign show (k : string -> M B) w :
  let p := procs w (spawned w) in
  let w1 := advance 1 (run_events (cmdline cmd) ign show p) w in
  bind (_run cmd ign show) k w
  = if failed ign p then (Raise (RuntimeError [failure_message (cmdline cmd) p]), w1)
    else k (Text.strip (captured (stdout p) "")) w1.
Proof.
  intros p w1. rewrite bind_eq, _run_eq. fold p. fold w1.
  destruct (failed ign p); reflexivity.
Qed.











(** ** The theorems at work on concrete worlds *)


Lemma openshift_poller_bounds_witness :
  fst (_wait_until_openshift_is_up fresh_checkout) = Ok tt
  ∧ commands (since fresh_checkout (snd (_wait_until_openshift_is_up fresh_checkout)))
    = ["oc cluster status"]
  ∧ fst (_wait_until_openshift_is_up cluster_never_up)
    = Raise (RuntimeError [openshift_down_message])
  ∧ commands (since cluster_never_up (snd (_wait_until_openshift_is_up cluster_never_up)))
    = replicate 90 "oc cluster status"
  ∧ sleeps (since cluster_never_up (snd (_wait_until_openshift_is_up cluster_never_up)))
    = replicate 90 1%nat.
Proof.
  assert (Hup : returncode (procs fresh_checkout (spawned fresh_checkout)) = 0)
    by reflexivity.
  assert (Hdown : forall i, (i < 90)%nat ->
                    returncode (procs cluster_never_up (spawned cluster_never_up + i)) ≠ 0)
    by (intros i _; vm_compute; lia).
  rewrite (proj1 (openshift_poller_bounds fresh_checkout) Hup).
  rewrite (proj1 (proj2 (openshift_poller_bounds cluster_never_up) Hdown)).
  cbn [fst snd]. rewrite !since_advance. repeat split; reflexivity.
Defined.






(** * Further properties of the script *)

(** ** The command runner *)

Lemma sleeps_run_events line ign show p : sleeps (run_events line ign show p) = [].
Proof.
  unfold run_events. rewrite !sleeps_app, sleeps_read_events.
  destruct show, (failed ign p); reflexivity.
Qed.



(** X1: whatever the command prints and however it exits, [_run] spawns
    exactly one process, through the shell, with the words of the command
    joined by spaces; it does not sleep and leaves the files alone. *)
Theorem run_spawns_one_process (cmd : cmd_arg) (ign show : bool) (w : world) :
  let w' := snd (_run cmd ign show w) in
  commands (since w w') = [cmdline cmd]
  ∧ spawned w' = S (spawned w)
  ∧ sleeps (since w w') = []
  ∧ files w' = files w.
Proof.
  cbv zeta. rewrite _run_eq. cbn [snd]. rewrite since_advance.
  by rewrite commands_run_events, sleeps_run_events.
Qed.



(** ** The cluster poller, on any world *)

Lemma first_exit0_spec ps from n k :
  first_exit0 ps from n = Some k <->
  (k < n)%nat ∧ returncode (ps (from + k)%nat) = 0
  ∧ forall i, (i < k)%nat -> returncode (ps (from + i)%nat) ≠ 0.
Proof.
  revert from k. induction n as [|n IH]; intros from k; cbn [first_exit0].
  - split; [done | intros (? & _); lia].
  - destruct (Z.eqb_spec (returncode (ps from)) 0) as [H0|H0].
    + split.
      * intros [= <-]. rewrite Nat.add_0_r. repeat split; [lia | done | intros; lia].
      * intros (_ & _ & Hbefore). destruct k as [|k]; [done|].
        specialize (Hbefore O). rewrite Nat.add_0_r in Hbefore.
        exfalso. apply Hbefore; [lia | done].
    + destruct (first_exit0 ps (S from) n) as [j|] eqn:Hj; cbn [fmap option_fmap option_map].
      * apply IH in Hj as (Hlt & Hrc & Hbefore). split.
        -- intros [= <-]. replace (from + S j)%nat with (S from + j)%nat by lia.
           repeat split; [lia | done |]. intros [|i] Hi.
           ++ by rewrite Nat.add_0_r.
           ++ replace (from + S i)%nat with (S from + i)%nat by lia. apply Hbefore. lia.
        -- intros (Hk & Hrck & Hbk). f_equal.
           destruct k as [|k]; [by rewrite Nat.add_0_r in Hrck|].
           destruct (Nat.lt_trichotomy k j) as [Hlt'|[->|Hgt]]; [|done|].
           ++ exfalso. apply (Hbefore k Hlt').
              by replace (S from + k)%nat with (from + S k)%nat by lia.
           ++ exfalso. apply (Hbk (S j)); [lia|].
              by replace (from + S j)%nat with (S from + j)%nat by lia.
      * split; [done|]. intros (Hk & Hrck & Hbk). destruct k as [|k].
        { by rewrite Nat.add_0_r in Hrck. }
        assert (first_exit0 ps (S from) n = Some k) as Hsome; [|congruence].
        apply IH. replace (S from + k)%nat with (from + S k)%nat by lia.
        repeat split; [lia | done |]. intros i Hi.
        replace (S from + i)%nat with (from + S i)%nat by lia. apply Hbk. lia.
Qed.

Lemma status_loop_eq n w :
  for_range n status_attempt w
  = match first_exit0 (procs w) (spawned w) n with
    | Some k =>
        (Ok true,
         advance (S k) (mjoin (replicate k [Exec status_cmd; Sleep 1])
                        ++ [Exec status_cmd]) w)
    | None =>
        (Ok false, advance n (mjoin (replicate n [Exec status_cmd; Sleep 1])) w)
    end.
Proof.
  revert w. induction n as [|n IH]; intros w.
  - cbn. by rewrite advance_0_nil.
  - cbn [for_range first_exit0]. exec. rewrite status_attempt_eq.
    destruct (returncode (procs w (spawned w)) =? 0); exec; [reflexivity|].
    rewrite IH. cbn [advance procs spawned].
    change (1 + spawned w)%nat with (S (spawned w)).
    destruct (first_exit0 (procs w) (S (spawned w)) n) as [k|];
      cbn [fmap option_fmap option_map]; rewrite advance_advance, Nat.add_1_r;
      reflexivity.
Qed.

Lemma commands_status_rounds k :
  commands (mjoin (replicate k [Exec status_cmd; Sleep 1]))
  = replicate k "oc cluster status".
Proof. induction k as [|k IH]; [reflexivity|]. cbn. by rewrite <- IH. Qed.

Lemma sleeps_status_rounds k :
  sleeps (mjoin (replicate k [Exec status_cmd; Sleep 1])) = replicate k 1%nat.
Proof. induction k as [|k IH]; [reflexivity|]. cbn. by rewrite <- IH. Qed.

Lemma replicate_snoc {A} (x : A) k : (replicate k x ++ [x])%list = replicate (S k) x.
Proof. induction k as [|k IH]; [reflexivity|]. cbn. by rewrite IH. Qed.

(** X4: when the first [oc cluster status] to exit with status 0 is the
    (k+1)-th, with k below 90, the poller makes exactly k+1 invocations,
    sleeps 1 after each of the k failures, and returns. *)
Theorem openshift_poller_first_success (w : world) (k : nat) :
  (k < 90)%nat ->
  (forall i, (i < k)%nat -> returncode (procs w (spawned w + i)) ≠ 0) ->
  returncode (procs w (spawned w + k)) = 0 ->
  let '(r, w') := _wait_until_openshift_is_up w in
  r = Ok tt
  ∧ commands (since w w') = replicate (S k) "oc cluster status"
  ∧ sleeps (since w w') = replicate k 1%nat
  ∧ last (since w w') = Some (Exec status_cmd).
Proof.
  intros Hk Hfail Hok.
  assert (Hfirst : first_exit0 (procs w) (spawned w) 90 = Some k)
    by by apply first_exit0_spec.
  unfold _wait_until_openshift_is_up. exec.
  change (for_range 90 _) with (for_range 90 status_attempt).
  rewrite status_loop_eq. cbn [advance procs spawned Init.Nat.add].
  rewrite Hfirst. exec. rewrite since_advance.
  change (Print ?t :: ?l) with ([Print t] ++ l)%list.
  rewrite !commands_app, !sleeps_app, commands_status_rounds, sleeps_status_rounds.
  cbn [commands sleeps omap list_omap app]. rewrite app_nil_r, replicate_snoc.
  repeat split; try reflexivity.
  change (Print ?t :: ?l ++ ?l') with ((Print t :: l) ++ l')%list.
  by rewrite last_snoc.
Qed.

(** X5: on any world the cluster poller either returns, after k
    invocations with k between 1 and 90 and k-1 sleeps of 1, or raises
    its own [RuntimeError] after exactly 90 invocations and 90 sleeps; it
    raises nothing else and invokes nothing but [oc cluster status]. *)
Theorem openshift_poller_outcomes (w : world) :
  let '(r, w') := _wait_until_openshift_is_up w in
  exists k,
    commands (since w w') = replicate k "oc cluster status"
    ∧ ((r = Ok tt ∧ (1 <= k <= 90)%nat ∧ sleeps (since w w') = replicate (k - 1) 1%nat)
       ∨ (r = Raise (RuntimeError [openshift_down_message]) ∧ k = 90%nat
          ∧ sleeps (since w w') = replicate 90 1%nat)).
Proof.
  unfold _wait_until_openshift_is_up. exec.
  change (for_range 90 _) with (for_range 90 status_attempt).
  rewrite status_loop_eq. cbn [advance procs spawned Init.Nat.add].
  destruct (first_exit0 (procs w) (spawned w) 90) as [k|] eqn:Hfirst; exec;
    rewrite since_advance; change (Print ?t :: ?l) with ([Print t] ++ l)%list;
    rewrite !commands_app, !sleeps_app, commands_status_rounds, sleeps_status_rounds.
  - apply first_exit0_spec in Hfirst as (Hk & _ & _).
    exists (S k). cbn [commands sleeps omap list_omap app].
    rewrite app_nil_r, replicate_snoc. split; [reflexivity|]. left.
    repeat split; [lia | lia |]. by rewrite Nat.sub_1_r.
  - exists 90%nat. split; [reflexivity|]. right. done.
Qed.

(** ** The container poller, on any world *)

Lemma inspect_loop_any dir_path container n w :
  exists k evs,
    (k <= n)%nat ∧ (n ≠ O -> (1 <= k)%nat)
    ∧ snd (for_range n (inspect_attempt dir_path container) w) = advance k evs w
    ∧ commands evs = replicate k (inspect_line dir_path container)
    ∧ sleeps evs = [].
Proof.
  revert w. induction n as [|n IH]; intros w.
  - exists O, []. cbn. by rewrite advance_0_nil.
  - cbn [for_range]. rewrite bind_eq, inspect_attempt_eq.
    set (line := inspect_line dir_path container).
    set (p := procs w (spawned w)).
    destruct (returncode p =? 0); cbv beta iota.
    + destruct (String.eqb (inspect_output p) "true").
      * exists 1%nat, (Shell line :: read_events false (stdout p)).
        rewrite ret_eq. cbn [snd]. repeat split; [lia | lia | |].
        -- change (Shell line :: ?l) with ([Shell line] ++ l)%list.
           by rewrite commands_app, commands_read_events.
        -- change (Shell line :: ?l) with ([Shell line] ++ l)%list.
           by rewrite sleeps_app, sleeps_read_events.
      * destruct (IH (advance 1 (Shell line :: read_events false (stdout p)) w))
          as (k & evs & Hk & _ & Hw & Hc & Hs).
        exists (S k), ((Shell line :: read_events false (stdout p)) ++ evs)%list.
        rewrite Hw, advance_advance, Nat.add_1_r.
        repeat split; [lia | lia | |].
        -- change (Shell line :: ?l) with ([Shell line] ++ l)%list.
           by rewrite !commands_app, commands_read_events, Hc.
        -- change (Shell line :: ?l) with ([Shell line] ++ l)%list.
           by rewrite !sleeps_app, sleeps_read_events, Hs.
    + exists 1%nat, (Shell line :: read_events false (stdout p)
                     ++ [Print (captured (stdout p) "")])%list.
      cbn [snd]. repeat split; [lia | lia | |].
      * change (Shell line :: ?l) with ([Shell line] ++ l)%list.
        by rewrite !commands_app, commands_read_events.
      * change (Shell line :: ?l) with ([Shell line] ++ l)%list.
        by rewrite !sleeps_app, sleeps_read_events.
Qed.



(** X6: on any world the container poller makes between one and ten
    inspections, spawns nothing else, and never sleeps: the [sleep(1)] of
    its handler is never reached. *)
Theorem container_poller_bounded_without_sleep
    (dir_path container : string) (w : world) :
  let w' := snd (_wait_until_container_is_up dir_path container w) in
  exists k, (1 <= k <= 10)%nat
            ∧ commands (since w w') = replicate k (inspect_line dir_path container)
            ∧ sleeps (since w w') = [].
Proof.
  cbv zeta. unfold _wait_until_container_is_up. rewrite bind_eq.
  change (for_range 10 _) with (for_range 10 (inspect_attempt dir_path container)).
  destruct (inspect_loop_any dir_path container 10 w) as (k & evs & Hk & Hk1 & Hw & Hc & Hs).
  exists k. split; [split; [by apply Hk1 | done]|].
  destruct (for_range 10 (inspect_attempt dir_path container) w) as [[[|]|e] w1];
    unfold ret, raise; cbn [snd] in *; subst w1; by rewrite since_advance.
Qed.



(** ** The log poller, on any world *)

Lemma scan_logs_any container str_to_find p pipe polls logs w :
  exists (b : bool) (k : nat),
    scan_logs container str_to_find p polls pipe logs w
    = (Ok (b, logs ++ Text.cat (take k pipe)),
       advance 0 (replicate k Readline
                  ++ (if b then [Print ("Container " ++ container ++ " is up")] else []))
               w)
    ∧ (k <= S (List.length pipe))%nat
    ∧ (b = true -> exists line, line ∈ pipe ∧ Text.contains str_to_find line = true).
Proof.
  revert polls logs w. induction pipe as [|line rest IH]; intros polls logs w;
    cbn [scan_logs]; destruct (truthy_status (poll p polls)).
  - exists false, O. rewrite ret_eq, advance_0_nil. cbn [take Text.cat].
    rewrite append_nil_r. repeat split; [cbn; lia | done].
  - exists false, 1%nat. exec. cbn [take Text.cat].
    rewrite append_nil_r. repeat split; [cbn; lia | done].
  - exists false, O. rewrite ret_eq, advance_0_nil. cbn [take Text.cat].
    rewrite append_nil_r. repeat split; [cbn; lia | done].
  - exec. destruct (String.eqb_spec line "") as [->|Hne].
    + exists false, 1%nat. exec. cbn [take Text.cat]. rewrite append_nil_r.
      repeat split; [cbn; lia | done].
    + destruct (Text.contains str_to_find line) eqn:Hin.
      * exists true, 1%nat. exec. cbn [take Text.cat]. rewrite take_0. cbn [Text.cat].
        rewrite append_nil_r. repeat split; [cbn; lia|].
        intros _. exists line. split; [apply list_elem_of_here | done].
      * destruct (IH (S polls) (logs ++ line) (advance 0 [Readline] w))
          as (b & k & Heq & Hk & Hb).
        exists b, (S k). rewrite Heq, advance_advance. cbn [take Text.cat].
        rewrite append_assoc. repeat split; [cbn [List.length]; lia|].
        intros Htrue. destruct (Hb Htrue) as (l & Hl & Hc).
        exists l. split; [by apply list_elem_of_further | done].
Qed.



(** X9: the log poller returns only when some line of the stream holds
    the target, whatever [poll()] answers along the way. *)
Theorem log_poller_success_is_sound
    (container str_to_find : string) (w : world) :
  fst (_wait_until_string_is_in_logs container str_to_find w) = Ok tt ->
  exists line, line ∈ stdout (procs w (spawned w))
               ∧ Text.contains str_to_find line = true.
Proof.
  unfold _wait_until_string_is_in_logs. exec.
  cbn [advance procs spawned Init.Nat.add].
  destruct (scan_logs_any container str_to_find (procs w (spawned w))
              (stdout (procs w (spawned w))) 0 "" (advance 1 [Exec (logs_cmd container)] w))
    as (b & k & Heq & _ & Hb).
  change ["docker"; "logs"; "-f"; container] with (logs_cmd container).
  rewrite Heq. exec. destruct b; exec; cbn [fst]; [|done]. intros _. by apply Hb.
Qed.


(** ** The registry patch: errors, what it keeps, where it settles *)

Lemma update_origin_config_raise w config rs e :
  master_config w = Some config ->
  registries_of config = Some rs ->
  domains_of rs = inl e ->
  _update_origin_config w = (Raise e, w).
Proof.
  intros Hfile Hregs Hds.
  destruct (registries_of_Some _ _ Hregs)
    as (fields & policy & policy_fields & -> & Hset & _ & _ & Hitems).
  unfold _update_origin_config. exec. rewrite (safe_load_eq _ _ Hfile). exec.
  rewrite Hset. cbn [setdefault].
  destruct (policy !! "allowedRegistriesForImport") as [v|] eqn:Hv;
    cbn [from_option id] in Hitems; inversion Hitems; subst; by rewrite Hds.
Qed.

Lemma update_origin_config_inv w b w' :
  _update_origin_config w = (Ok b, w') ->
  exists config rs ds,
    master_config w = Some config
    ∧ registries_of config = Some rs
    ∧ domains_of rs = inr ds.
Proof.
  intros Hrun. unfold _update_origin_config in Hrun.
  rewrite bind_eq in Hrun. unfold safe_load in Hrun. unfold master_config.
  destruct (files w !! config_path) as [config|]; [|by inversion Hrun].
  cbv beta iota in Hrun. exists config.
  destruct config as [| | | | |fields]; try by inversion Hrun.
  cbn [setdefault registries_of] in *.
  destruct (fields !! "imagePolicyConfig") as [[| | | | |policy]|];
    cbn [from_option id setdefault] in *; try by inversion Hrun.
  - destruct (policy !! "allowedRegistriesForImport") as [[| | |s|items|m]|];
      cbn [from_option id] in *; try by inversion Hrun.
    + destruct (String.eqb s ""); by inversion Hrun.
    + destruct (domains_of items) as [e|ds] eqn:Hds; [by inversion Hrun|].
      by exists items, ds.
    + destruct (bool_decide (m = ∅)); by inversion Hrun.
    + by exists [], [].
  - rewrite lookup_empty in *. cbn [from_option id] in *. by exists [], [].
Qed.

Lemma domains_of_missing_domain pre ds fields post :
  domains_of pre = inr ds ->
  fields !! "domainName" = None ->
  domains_of (pre ++ YMap fields :: post) = inl (KeyError "domainName").
Proof.
  revert ds. induction pre as [|r pre IH]; intros ds Hpre Hnone.
  - cbn [app domains_of domain_of]. by rewrite Hnone.
  - cbn [app domains_of] in *. destruct (domain_of r) as [e|d]; [done|].
    destruct (domains_of pre) as [e|ds0]; [done|]. by rewrite (IH ds0).
Qed.

(** X11: an entry of the registry list that has no [domainName] makes
    the patch raise [KeyError('domainName')] and leave the file as it
    is, even when an earlier entry is already the local registry. *)
Theorem registry_patch_entry_without_domain
    (w : world) (config : yaml) (pre post ds : list yaml)
    (fields : gmap string yaml) :
  master_config w = Some config ->
  registries_of config = Some (pre ++ YMap fields :: post)%list ->
  domains_of pre = inr ds ->
  fields !! "domainName" = None ->
  _update_origin_config w = (Raise (KeyError "domainName"), w).
Proof.
  intros Hfile Hregs Hpre Hnone.
  eapply update_origin_config_raise; [done | done |].
  by eapply domains_of_missing_domain.
Qed.

(** X12: once the patch has returned, with [True] or with [False], a
    further application returns [False] and changes nothing. *)
Theorem registry_patch_settles (w w' : world) (b : bool) :
  _update_origin_config w = (Ok b, w') ->
  _update_origin_config w' = (Ok false, w').
Proof.
  intros Hrun.
  destruct (update_origin_config_inv _ _ _ Hrun) as (config & rs & ds & Hfile & Hregs & Hds).
  rewrite (update_origin_config_eq w config rs ds) in Hrun by done.
  destruct (existsb is_local_registry ds) eqn:Hhas.
  - inversion Hrun; subst. rewrite (update_origin_config_eq w' config rs ds) by done.
    by rewrite Hhas.
  - inversion Hrun; subst.
    set (config' := with_registries config (rs ++ [local_entry])).
    assert (Hregs' : registries_of config' = Some (rs ++ [local_entry])%list)
      by by eapply registries_of_with_registries.
    assert (Hds' : domains_of (rs ++ [local_entry])
                   = inr (ds ++ [YStr LOCAL_REGISTRY])%list).
    { apply domains_of_app; [done|]. cbn [domains_of]. by rewrite domain_of_local_entry. }
    rewrite (update_origin_config_eq (dumped config' w) config' _ _
               (master_config_dumped _ _) Hregs' Hds').
    by rewrite existsb_local_app.
Qed.


(** X14: on a configuration without [imagePolicyConfig] (the empty
    mapping included) the patch creates it, with a registry list made of
    the local registry alone, keeps the other keys, and returns [True]. *)
Theorem registry_patch_on_bare_config (w : world) (fields : gmap string yaml) :
  master_config w = Some (YMap fields) ->
  fields !! "imagePolicyConfig" = None ->
  _update_origin_config w
  = (Ok true,
     dumped (YMap (<["imagePolicyConfig" :=
                       YMap {[ "allowedRegistriesForImport" := YSeq [local_entry] ]}]>
                     fields)) w).
Proof.
  intros Hfile Hnone.
  rewrite (update_origin_config_eq w (YMap fields) [] []); [| done | | done].
  - cbn [existsb with_registries app]. rewrite Hnone. by rewrite insert_empty.
  - cbn [registries_of]. rewrite Hnone. cbn [from_option id].
    by rewrite lookup_empty.
Qed.

(** ** Teardown *)



(** ** Starting the cluster *)









(** ** Copying an image *)

Lemma startswith_scheme s : Text.startswith "docker://" ("docker://" ++ s) = true.
Proof. destruct s; reflexivity. Qed.

(** X19: [_copy_image] runs one command, the skopeo-lite container,
    whose source carries the [docker://] scheme exactly once: it is
    added when the given source lacks it, so a source with and without
    the scheme behave alike; the destination is the local registry. *)
Theorem copy_image_source_scheme
    (dir_path source destination_repo : string) (w : world) :
  let source' := if Text.startswith "docker://" source then source
                 else "docker://" ++ source in
  let destination := "docker://" ++ LOCAL_REGISTRY ++ "/" ++ destination_repo in
  commands (since w (snd (_copy_image dir_path source destination_repo w)))
  = [copy_line dir_path source' destination]
  ∧ Text.startswith "docker://" source' = true
  ∧ _copy_image dir_path source' destination_repo w
    = _copy_image dir_path source destination_repo w.
Proof.
  cbv zeta. unfold _copy_image.
  destruct (Text.startswith "docker://" source) eqn:Hs; cbn [negb].
  - rewrite Hs. cbn [negb]. split; [|done].
    rewrite bind_eq, print_eq. cbv beta iota.
    rewrite run_then. destruct (failed false _); rewrite ?bind_eq, ?ret_eq;
      cbv beta iota; cbn [snd]; rewrite advance_advance, since_advance;
      change (Print ?t :: ?l) with ([Print t] ++ l)%list;
      by rewrite commands_app, commands_run_events.
  - rewrite startswith_scheme. cbn [negb]. split; [|done].
    rewrite bind_eq, print_eq. cbv beta iota.
    rewrite run_then. destruct (failed false _); rewrite ?bind_eq, ?ret_eq;
      cbv beta iota; cbn [snd]; rewrite advance_advance, since_advance;
      change (Print ?t :: ?l) with ([Print t] ++ l)%list;
      by rewrite commands_app, commands_run_events.
Qed.

(** ** Reporting the status *)












(** ** A failed cluster start ends [up] *)


(** ** The further properties at work on concrete worlds *)

Lemma openshift_poller_first_success_witness :
  returncode (procs cluster_up_on_third (spawned cluster_up_on_third + 2)) = 0
  ∧ fst (_wait_until_openshift_is_up cluster_up_on_third) = Ok tt
  ∧ commands (since cluster_up_on_third
                (snd (_wait_until_openshift_is_up cluster_up_on_third)))
    = replicate 3 "oc cluster status"
  ∧ sleeps (since cluster_up_on_third
              (snd (_wait_until_openshift_is_up cluster_up_on_third)))
    = [1; 1]%nat.
Proof.
  assert (Hok : returncode (procs cluster_up_on_third (spawned cluster_up_on_third + 2))
                = 0) by reflexivity.
  assert (Hfail : forall i, (i < 2)%nat ->
            returncode (procs cluster_up_on_third (spawned cluster_up_on_third + i)) ≠ 0).
  { intros [|[|i]] Hi; [vm_compute; lia | vm_compute; lia | lia]. }
  split; [exact Hok|].
  pose proof (openshift_poller_first_success cluster_up_on_third 2
                ltac:(lia) Hfail Hok) as H.
  destruct (_wait_until_openshift_is_up cluster_up_on_third) as [r w'].
  destruct H as (Hr & Hc & Hs & _). cbn [fst snd].
  split; [exact Hr|]. split; [exact Hc | exact Hs].
Defined.



Lemma log_poller_success_is_sound_witness :
  fst (_wait_until_string_is_in_logs "osbsbox_koji-client_1" "exec sleep infinity"
         logs_streaming) = Ok tt
  ∧ exists line, line ∈ stdout (procs logs_streaming (spawned logs_streaming))
                 ∧ Text.contains "exec sleep infinity" line = true.
Proof.
  assert (H : fst (_wait_until_string_is_in_logs "osbsbox_koji-client_1"
                     "exec sleep infinity" logs_streaming) = Ok tt) by reflexivity.
  split; [exact H|].
  exact (log_poller_success_is_sound "osbsbox_koji-client_1" "exec sleep infinity"
           logs_streaming H).
Defined.

Lemma registry_patch_entry_without_domain_witness :
  domains_of [local_entry] = inr [YStr LOCAL_REGISTRY]
  ∧ _update_origin_config (with_config entry_without_domain)
    = (Raise (KeyError "domainName"), with_config entry_without_domain).
Proof.
  assert (Hpre : domains_of [local_entry] = inr [YStr LOCAL_REGISTRY]) by reflexivity.
  split; [exact Hpre|].
  exact (registry_patch_entry_without_domain (with_config entry_without_domain)
           entry_without_domain [local_entry] [] [YStr LOCAL_REGISTRY]
           {[ "insecure" := YBool true ]} eq_refl eq_refl Hpre eq_refl).
Defined.

Lemma registry_patch_settles_witness :
  _update_origin_config (with_config docker_io_only)
  = (Ok true, snd (_update_origin_config (with_config docker_io_only)))
  ∧ _update_origin_config (snd (_update_origin_config (with_config docker_io_only)))
    = (Ok false, snd (_update_origin_config (with_config docker_io_only))).
Proof.
  assert (H : _update_origin_config (with_config docker_io_only)
              = (Ok true, snd (_update_origin_config (with_config docker_io_only))))
    by reflexivity.
  split; [exact H|].
  exact (registry_patch_settles (with_config docker_io_only) _ true H).
Defined.


Lemma registry_patch_on_bare_config_witness :
  bare_config !! "imagePolicyConfig" = None
  ∧ fst (_update_origin_config (with_config (YMap bare_config))) = Ok true
  ∧ (master_config (snd (_update_origin_config (with_config (YMap bare_config))))
     ≫= registries_of) = Some [local_entry].
Proof.
  assert (Hnone : bare_config !! "imagePolicyConfig" = None) by reflexivity.
  split; [exact Hnone|].
  rewrite (registry_patch_on_bare_config (with_config (YMap bare_config)) bare_config
             eq_refl Hnone).
  split; reflexivity.
Defined.




